(** * Stop sign detection and route annotation

    A shallow embedding of [stop_sign_detection.cpp]:

    - [double] is IEEE 754 binary64, modelled by Rocq's primitive floats:
      [dx * dx + dy * dy], [std::sqrt] and [<] are the IEEE operations, each
      rounded to nearest on its own (no fused multiply-add);
    - [int] is modelled by [Z] (the values the program handles stay within
      32 bits, where the conversion to [double] is exact);
    - [std::vector] is modelled by [list]; a range-[for] over a vector of
      references is a [fmap] that rewrites every element in place, a
      range-[for] over a [const] vector is a [foldl];
    - OpenCV is an interface ([OpenCV]): the image-processing primitives the
      program calls but does not define. *)

From Stdlib Require Import ZArith Floats Uint63 Ascii String Lia.
From stdpp Require Import base list.

#[local] Set Warnings "-inexact-float".
#[local] Open Scope Z_scope.

(** ** OpenCV: the types and primitives the program uses *)

Module cv.

(** [cv::Point], i.e. [cv::Point_<int>]. *)
Module Point.
Record t : Type := mk { x : Z; y : Z }.
End Point.

(** [cv::Rect], i.e. [cv::Rect_<int>]: top-left corner and extent. *)
Module Rect.
Record t : Type := mk { x : Z; y : Z; width : Z; height : Z }.
End Rect.

(** [uchar]: the element of an 8-bit single-channel matrix. *)
Definition uchar : Type := Z.

(** [cv::Vec3b]: the element of an 8-bit three-channel matrix (B, G, R
    for a decoded image; H, S, V after the conversion). *)
Record Vec3b : Type := mkVec3b { ch0 : uchar; ch1 : uchar; ch2 : uchar }.

(** [cv::Scalar(v0, v1, v2)]; the fourth component is zero and is not read
    for three-channel data. *)
Record Scalar : Type := mkScalar { val0 : Z; val1 : Z; val2 : Z }.

(** [cv::Mat], dense and continuous: element (r, c) is [data] at index
    [r * cols + c]; a matrix without a buffer has [data = []]. *)
Record Mat (A : Type) : Type := mkMat { rows : nat; cols : nat; data : list A }.
Arguments mkMat {A} _ _ _.
Arguments rows {A} _.
Arguments cols {A} _.
Arguments data {A} _.

(** [cv::Mat::total()]. *)
Definition total {A} (m : Mat A) : nat := (rows m * cols m)%nat.

(** [cv::Mat::empty()]: no buffer, or no element. *)
Definition empty {A} (m : Mat A) : bool :=
  bool_decide (data m = []) || bool_decide (total m = 0%nat).

(** [cv::Exception], reduced to its error code. *)
Record Exception : Type := mkException { code : Z }.
Definition StsAssert : Exception := mkException (-215).
Definition StsUnmatchedSizes : Exception := mkException (-209).

(** A call that either returns or throws a [cv::Exception]. *)
Inductive result (A : Type) : Type :=
| Ok (a : A)
| Throw (e : Exception).
Arguments Ok {A} _.
Arguments Throw {A} _.

#[global] Instance result_ret : MRet result := λ A a, Ok a.
#[global] Instance result_bind : MBind result := λ A B k r,
  match r with
  | Ok a => k a
  | Throw e => Throw e
  end.

Variant ColorConversionCodes : Type := COLOR_BGR2HSV.
Variant RetrievalModes : Type := RETR_EXTERNAL.
Variant ContourApproximationModes : Type := CHAIN_APPROX_SIMPLE.

(** The per-element test of [cv::inRange]: every channel lies between the
    bounds, both included. *)
Definition in_bounds (lowerb upperb : Scalar) (px : Vec3b) : bool :=
  (val0 lowerb <=? ch0 px) && (ch0 px <=? val0 upperb)
  && (val1 lowerb <=? ch1 px) && (ch1 px <=? val1 upperb)
  && (val2 lowerb <=? ch2 px) && (ch2 px <=? val2 upperb).

(** [cv::inRange(src, lowerb, upperb, dst)] on three-channel data, as
    OpenCV documents it: [dst] has the size of [src], one channel, and an
    element is 255 where the test holds and 0 elsewhere. *)
Definition inRange (src : Mat Vec3b) (lowerb upperb : Scalar) : Mat uchar :=
  mkMat (rows src) (cols src)
        ((λ px, if in_bounds lowerb upperb px then 255 else 0) <$> data src).

(** [a | b] on single-channel matrices, i.e. [cv::bitwise_or]: bitwise on
    each element; operands of different sizes are refused. *)
Definition bitwise_or (a b : Mat uchar) : result (Mat uchar) :=
  if bool_decide (rows a = rows b) && bool_decide (cols a = cols b)
     && bool_decide (length (data a) = length (data b))
  then Ok (mkMat (rows a) (cols a) (zip_with Z.lor (data a) (data b)))
  else Throw StsUnmatchedSizes.

(** The primitives whose code is OpenCV's. Only the colour conversion can
    throw here: every later call receives a matrix or a point list that
    OpenCV itself has produced. *)
Class Primitives : Type := {
  imread : string → Mat Vec3b;
  cvtColor : Mat Vec3b → ColorConversionCodes → result (Mat Vec3b);
  (** [erode] and [dilate] with the default 3x3 kernel and anchor. *)
  erode : Mat uchar → Z → Mat uchar;
  dilate : Mat uchar → Z → Mat uchar;
  findContours :
    Mat uchar → RetrievalModes → ContourApproximationModes → list (list Point.t);
  arcLength : list Point.t → bool → float;
  approxPolyDP : list Point.t → float → bool → list Point.t;
  contourArea : list Point.t → float;
  boundingRect : list Point.t → Rect.t;
  rectangle : Mat Vec3b → Rect.t → Scalar → Z → Mat Vec3b;
  polylines : Mat Vec3b → list Point.t → bool → Scalar → Z → Mat Vec3b
}.

End cv.

(** ** Data model of the program *)

(** [struct DetectedStopSign]. *)
Record DetectedStopSign : Type := mkDetectedStopSign {
  boundingBox : cv.Rect.t;
  contour : list cv.Point.t
}.

(** [struct MapNode]. *)
Record MapNode : Type := mkMapNode {
  x : float;
  y : float;
  hasStop : bool
}.

(** [static_cast<double>(i)] for an [int] [i]. *)
Definition double_of_int (i : Z) : float :=
  if i <? 0 then PrimFloat.opp (PrimFloat.of_uint63 (Uint63.of_Z (- i)))
  else PrimFloat.of_uint63 (Uint63.of_Z i).

(** ** SignDetector: [detectStopSigns] *)

Section SignDetector.

Context `{cv.Primitives}.

(** The two [cv::inRange] calls and [mask1 | mask2]. *)
Definition red_mask (hsv : cv.Mat cv.Vec3b) : cv.result (cv.Mat cv.uchar) :=
  let mask1 := cv.inRange hsv (cv.mkScalar 0 70 50) (cv.mkScalar 10 255 255) in
  let mask2 := cv.inRange hsv (cv.mkScalar 170 70 50) (cv.mkScalar 180 255 255) in
  cv.bitwise_or mask1 mask2.

(** The polygon [approx] computed for a contour. *)
Definition approximate (cnt : list cv.Point.t) : list cv.Point.t :=
  let perimeter := cv.arcLength cnt true in
  cv.approxPolyDP cnt (0.02 * perimeter)%float true.

(** The test [approx.size() == 8 && cv::contourArea(approx) > 1000]. *)
Definition is_octagonal (approx : list cv.Point.t) : bool :=
  bool_decide (length approx = 8%nat)
  && (double_of_int 1000 <? cv.contourArea approx)%float.

(** The body of the loop over the contours; [push_back] appends. *)
Definition examine_contour
    (detectedSigns : list DetectedStopSign) (cnt : list cv.Point.t)
    : list DetectedStopSign :=
  let approx := approximate cnt in
  if is_octagonal approx then
    let bbox := cv.boundingRect approx in
    detectedSigns ++ [ {| boundingBox := bbox; contour := approx |} ]
  else detectedSigns.

Definition detectStopSigns (frame : cv.Mat cv.Vec3b)
    : cv.result (list DetectedStopSign) :=
  hsv ← cv.cvtColor frame cv.COLOR_BGR2HSV;
  mask ← red_mask hsv;
  let mask := cv.erode mask 2 in
  let mask := cv.dilate mask 2 in
  let contours := cv.findContours mask cv.RETR_EXTERNAL cv.CHAIN_APPROX_SIMPLE in
  mret (foldl examine_contour [] contours).

End SignDetector.

(** ** RouteAnnotator: [updateRoutingWithStopSigns] *)

(** The [double distance] computed in the body of the inner loop. *)
Definition distance (node : MapNode) (sign : DetectedStopSign) : float :=
  let dx := (node.(x) - double_of_int sign.(boundingBox).(cv.Rect.x))%float in
  let dy := (node.(y) - double_of_int sign.(boundingBox).(cv.Rect.y))%float in
  PrimFloat.sqrt (dx * dx + dy * dy)%float.

(** The test [distance < 50.0]. *)
Definition is_close (node : MapNode) (sign : DetectedStopSign) : bool :=
  (distance node sign <? 50.0)%float.

(** The assignment [node.hasStop = true]. *)
Definition mark (node : MapNode) : MapNode :=
  {| x := node.(x); y := node.(y); hasStop := true |}.

(** One iteration of the inner loop, on the node the outer loop refers to. *)
Definition visit_sign (node : MapNode) (sign : DetectedStopSign) : MapNode :=
  if is_close node sign then mark node else node.

(** The inner loop [for (const auto &sign : signs)]. *)
Definition visit_signs (signs : list DetectedStopSign) (node : MapNode) : MapNode :=
  foldl visit_sign node signs.

(** The outer loop [for (auto &node : route)]: the vector is updated in
    place, which is returned here as the new contents of [route]. *)
Definition updateRoutingWithStopSigns
    (route : list MapNode) (signs : list DetectedStopSign) : list MapNode :=
  visit_signs signs <$> route.

(** ** The program: [main] *)

(** What is written to a stream by one [<<]. *)
Inductive item : Type :=
| Str (s : string)
| Index (i : nat)
| Double (d : float).

(** The observable actions of the program, in order. *)
Inductive event : Type :=
| Cerr (line : list item)
| Cout (line : list item)
| Imshow (winname : string) (img : cv.Mat cv.Vec3b)
| WaitKey (delay : Z).

(** How the program ends: [main] returns, or an exception that nothing
    catches reaches [std::terminate]. *)
Inductive outcome : Type :=
| Return (status : Z)
| Terminate (e : cv.Exception).

Record run : Type := mkRun { events : list event; ending : outcome }.

Definition endl : string := String (ascii_of_nat 10) EmptyString.

(** The route built in [main]. *)
Definition example_route : list MapNode :=
  [ mkMapNode 100.0 150.0 false;
    mkMapNode 200.0 250.0 false;
    mkMapNode 300.0 350.0 false ].

(** The line printed for [route[i]]. *)
Definition print_node (i : nat) (node : MapNode) : event :=
  Cout [ Str " Node "; Index i; Str ": (x="; Double node.(x);
         Str ", y="; Double node.(y); Str "), hasStop=";
         Str (if node.(hasStop) then "true" else "false"); Str endl ].

Section Program.

Context `{cv.Primitives}.

(** The body of the loop that draws the detections on the frame. *)
Definition draw_sign (frame : cv.Mat cv.Vec3b) (sign : DetectedStopSign)
    : cv.Mat cv.Vec3b :=
  let frame := cv.rectangle frame sign.(boundingBox) (cv.mkScalar 0 255 0) 3 in
  cv.polylines frame sign.(contour) true (cv.mkScalar 255 0 0) 2.

Definition main : run :=
  let frame := cv.imread "stop_sign_sample.jpg" in
  if cv.empty frame then
    {| events :=
         [ Cerr [ Str ("Error loading image. Make sure the image path is correct."
                       ++ endl) ] ];
       ending := Return (-1) |}
  else
    match detectStopSigns frame with
    | cv.Throw e => {| events := []; ending := Terminate e |}
    | cv.Ok signs =>
        let route := updateRoutingWithStopSigns example_route signs in
        let frame := foldl draw_sign frame signs in
        {| events :=
             Cout [ Str ("Route:" ++ endl) ] :: imap print_node route
             ++ [ Imshow "Stop Sign Detection" frame; WaitKey 0 ];
           ending := Return 0 |}
    end.

End Program.

(** ** A fixture standing for OpenCV in examples

    [fixture img cnts] reads [img] from any file and finds the contours
    [cnts] in any mask. Its colour conversion refuses an empty source and
    otherwise takes the pixels as they are; the polygon approximation keeps
    the contour; areas follow the shoelace formula and bounding boxes are
    the tight ones. Drawing and morphology leave the matrix alone. *)

Module Fixture.

Fixpoint shoelace (first : cv.Point.t) (pts : list cv.Point.t) : Z :=
  match pts with
  | [] => 0
  | [p] => cv.Point.x p * cv.Point.y first - cv.Point.x first * cv.Point.y p
  | p :: (q :: _) as rest =>
      cv.Point.x p * cv.Point.y q - cv.Point.x q * cv.Point.y p
      + shoelace first rest
  end.

Definition contourArea (pts : list cv.Point.t) : float :=
  match pts with
  | [] => 0%float
  | first :: _ => (double_of_int (Z.abs (shoelace first pts)) / 2)%float
  end.

Definition boundingRect (pts : list cv.Point.t) : cv.Rect.t :=
  match pts with
  | [] => cv.Rect.mk 0 0 0 0
  | p :: rest =>
      let xmin := foldr (λ q, Z.min (cv.Point.x q)) (cv.Point.x p) rest in
      let xmax := foldr (λ q, Z.max (cv.Point.x q)) (cv.Point.x p) rest in
      let ymin := foldr (λ q, Z.min (cv.Point.y q)) (cv.Point.y p) rest in
      let ymax := foldr (λ q, Z.max (cv.Point.y q)) (cv.Point.y p) rest in
      cv.Rect.mk xmin ymin (xmax - xmin + 1) (ymax - ymin + 1)
  end.

Definition fixture (img : cv.Mat cv.Vec3b) (cnts : list (list cv.Point.t))
    : cv.Primitives :=
  {| cv.imread := λ _, img;
     cv.cvtColor := λ src _, if cv.empty src then cv.Throw cv.StsAssert else cv.Ok src;
     cv.erode := λ m _, m;
     cv.dilate := λ m _, m;
     cv.findContours := λ _ _ _, cnts;
     cv.arcLength := λ _ _, 0%float;
     cv.approxPolyDP := λ cnt _ _, cnt;
     cv.contourArea := contourArea;
     cv.boundingRect := boundingRect;
     cv.rectangle := λ m _ _ _, m;
     cv.polylines := λ m _ _ _ _, m |}.

Definition pt (px py : Z) : cv.Point.t := cv.Point.mk px py.

(** An octagon of area 2800, the same shape four times smaller (area 175)
    and a square of area 10000. *)
Definition octagon : list cv.Point.t :=
  [ pt 20 0; pt 40 0; pt 60 20; pt 60 40; pt 40 60; pt 20 60; pt 0 40; pt 0 20 ].
Definition small_octagon : list cv.Point.t :=
  [ pt 5 0; pt 10 0; pt 15 5; pt 15 10; pt 10 15; pt 5 15; pt 0 10; pt 0 5 ].
Definition square : list cv.Point.t :=
  [ pt 0 0; pt 100 0; pt 100 100; pt 0 100 ].

Definition red : cv.Vec3b := cv.mkVec3b 0 200 200.
Definition grey : cv.Vec3b := cv.mkVec3b 90 10 128.

(** A 2x2 image, and the matrix [cv::imread] returns when it cannot read
    the file. *)
Definition image : cv.Mat cv.Vec3b := cv.mkMat 2 2 [red; grey; grey; red].
Definition no_image : cv.Mat cv.Vec3b := cv.mkMat 0 0 [].

End Fixture.

(** ** Vocabulary of the specification *)

(** A red pixel in the words of the specification: hue in band A or in
    band B, with enough saturation and value. *)
Definition is_red (px : cv.Vec3b) : Prop :=
  (0 ≤ cv.ch0 px ≤ 10 ∨ 170 ≤ cv.ch0 px ≤ 180)
  ∧ 70 ≤ cv.ch1 px ≤ 255
  ∧ 50 ≤ cv.ch2 px ≤ 255.

(** The precondition OpenCV's colour conversion asserts on its source
    ([CV_Assert(!_src.empty())]): an empty source makes it throw. *)
Definition cvtColor_rejects_empty `{cv.Primitives} : Prop :=
  ∀ src code, cv.empty src = true → ∃ e, cv.cvtColor src code = cv.Throw e.

(** The detection made of an accepted polygon. *)
Definition detection_of `{cv.Primitives} (approx : list cv.Point.t)
    : DetectedStopSign :=
  {| boundingBox := cv.boundingRect approx; contour := approx |}.

(** The contours the detector examines, given the red mask. *)
Definition contours_of `{cv.Primitives} (mask : cv.Mat cv.uchar)
    : list (list cv.Point.t) :=
  cv.findContours (cv.dilate (cv.erode mask 2) 2)
                  cv.RETR_EXTERNAL cv.CHAIN_APPROX_SIMPLE.

(** A sign whose bounding box has its top-left corner at the origin. *)
Definition sign_at_origin : DetectedStopSign :=
  {| boundingBox := cv.Rect.mk 0 0 64 64; contour := Fixture.octagon |}.

(** What [main] does when the image cannot be used. *)
Definition rejected_run : run :=
  {| events :=
       [ Cerr [ Str ("Error loading image. Make sure the image path is correct."
                     ++ endl) ] ];
     ending := Return (-1) |}.

(** The point of a detection the annotator measures from. *)
Definition corner (sign : DetectedStopSign) : Z * Z :=
  (sign.(boundingBox).(cv.Rect.x), sign.(boundingBox).(cv.Rect.y)).

(** A [double] that is a NaN or an infinity. *)
Definition non_finite (d : float) : bool :=
  PrimFloat.is_nan d || PrimFloat.is_infinity d.


(** ** Properties of the route annotator *)

Section RouteAnnotator.

Implicit Types (node : MapNode) (sign : DetectedStopSign).
Implicit Types (route : list MapNode) (signs : list DetectedStopSign).

Lemma visit_sign_x node sign : (visit_sign node sign).(x) = node.(x).
Proof. unfold visit_sign. by destruct (is_close node sign). Qed.

Lemma visit_sign_y node sign : (visit_sign node sign).(y) = node.(y).
Proof. unfold visit_sign. by destruct (is_close node sign). Qed.

Lemma visit_sign_hasStop node sign :
  (visit_sign node sign).(hasStop) = node.(hasStop) || is_close node sign.
Proof.
  unfold visit_sign. destruct (is_close node sign); simpl.
  - by rewrite orb_true_r.
  - by rewrite orb_false_r.
Qed.

(** Closeness only reads the coordinates of the node. *)
Lemma is_close_coords node node' sign :
  node'.(x) = node.(x) → node'.(y) = node.(y) →
  is_close node' sign = is_close node sign.
Proof. intros Hx Hy. unfold is_close, distance. by rewrite Hx, Hy. Qed.

Lemma is_close_visit_sign node sign sign' :
  is_close (visit_sign node sign) sign' = is_close node sign'.
Proof. apply is_close_coords; [apply visit_sign_x | apply visit_sign_y]. Qed.

Lemma existsb_is_close_coords node node' signs :
  node'.(x) = node.(x) → node'.(y) = node.(y) →
  existsb (is_close node') signs = existsb (is_close node) signs.
Proof.
  intros Hx Hy. induction signs as [|sign signs IH]; simpl; [done|].
  by rewrite IH, (is_close_coords node node').
Qed.

Lemma visit_signs_x signs node : (visit_signs signs node).(x) = node.(x).
Proof.
  unfold visit_signs. revert node.
  induction signs as [|sign signs IH]; intros node; simpl; [done|].
  by rewrite IH, visit_sign_x.
Qed.

Lemma visit_signs_y signs node : (visit_signs signs node).(y) = node.(y).
Proof.
  unfold visit_signs. revert node.
  induction signs as [|sign signs IH]; intros node; simpl; [done|].
  by rewrite IH, visit_sign_y.
Qed.

(** The flag after the inner loop: the flag before, or some sign is close. *)
Lemma visit_signs_hasStop signs node :
  (visit_signs signs node).(hasStop)
  = node.(hasStop) || existsb (is_close node) signs.
Proof.
  unfold visit_signs. revert node.
  induction signs as [|sign signs IH]; intros node; simpl.
  - by rewrite orb_false_r.
  - rewrite IH, visit_sign_hasStop, <- orb_assoc. do 2 f_equal.
    apply existsb_is_close_coords; [apply visit_sign_x | apply visit_sign_y].
Qed.

Lemma MapNode_eq node node' :
  node.(x) = node'.(x) → node.(y) = node'.(y) →
  node.(hasStop) = node'.(hasStop) → node = node'.
Proof. destruct node, node'; simpl; congruence. Qed.

Lemma visit_signs_app signs1 signs2 node :
  visit_signs (signs1 ++ signs2) node
  = visit_signs signs2 (visit_signs signs1 node).
Proof. unfold visit_signs. apply foldl_app. Qed.

Lemma existsb_is_close_Permutation node signs signs' :
  signs ≡ₚ signs' →
  existsb (is_close node) signs = existsb (is_close node) signs'.
Proof.
  induction 1 as [|sign ?? _ IH|sign1 sign2 ?|??? _ IH1 _ IH2]; simpl.
  - done.
  - by rewrite IH.
  - by rewrite !orb_assoc, (orb_comm (is_close node sign2)).
  - by rewrite IH1.
Qed.

End RouteAnnotator.

(** ** Claims about the route annotator *)

(** The route after the call, node by node. *)
Lemma updateRoutingWithStopSigns_lookup route signs i :
  updateRoutingWithStopSigns route signs !! i = visit_signs signs <$> route !! i.
Proof. unfold updateRoutingWithStopSigns. apply list_lookup_fmap. Qed.

Lemma existsb_is_close_elem_of node signs :
  existsb (is_close node) signs = true
  ↔ ∃ sign, sign ∈ signs ∧ (distance node sign <? 50.0)%float = true.
Proof.
  rewrite existsb_exists. unfold is_close.
  split; intros (sign & Hin & Hclose); exists sign; split; try done;
    by apply list_elem_of_In.
Qed.

(** C1: after [updateRoutingWithStopSigns], the flag of a node is set
exactly when it was set before or, for some detection, the Euclidean
distance [sqrt (dx * dx + dy * dy)] between the node and the top-left corner
of the bounding box, with [dx = N.x - boundingBox.x] and
[dy = N.y - boundingBox.y] in [double] arithmetic, is below 50.0. For a
bounding box at (110,160): nodes at distance 49.9, 50.1 and exactly 50 are
marked, not marked and not marked (the comparison is strict); a node 30
across and 30 down (distance about 42.4, though 60 along the axes) is
marked, and a node 39 across and 39 down (distance about 55.2, though both
offsets are below 50) is not. *)
Theorem C1_hasStop_iff_within_threshold :
  (∀ route signs,
     Forall2
       (λ N N',
          N'.(hasStop) = true
          ↔ N.(hasStop) = true
            ∨ ∃ D, D ∈ signs
                   ∧ let dx := (N.(x)
                                - double_of_int D.(boundingBox).(cv.Rect.x))%float in
                     let dy := (N.(y)
                                - double_of_int D.(boundingBox).(cv.Rect.y))%float in
                     (PrimFloat.sqrt (dx * dx + dy * dy) <? 50.0)%float = true)
       route (updateRoutingWithStopSigns route signs))
  ∧ (let sign := {| boundingBox := cv.Rect.mk 110 160 40 40;
                    contour := Fixture.octagon |} in
     let route := [ mkMapNode 70.12507053297774 190 false;
                    mkMapNode 140.1663720059274 200 false;
                    mkMapNode 140 200 false;
                    mkMapNode 140 190 false;
                    mkMapNode 149 199 false ] in
     (λ node, distance node sign) <$> route
     = [ 49.9; 50.1; 50; 42.426406871192853; 55.154328932550705 ]%float
     ∧ hasStop <$> updateRoutingWithStopSigns route [sign]
       = [ true; false; false; true; false ]
     ∧ (λ node, (node.(x), node.(y)))
         <$> updateRoutingWithStopSigns route [sign]
       = (λ node, (node.(x), node.(y))) <$> route).
Proof.
  split; [|by vm_compute].
  intros route signs. unfold updateRoutingWithStopSigns.
  apply Forall2_fmap_r, Forall_Forall2_diag, Forall_forall. intros N _.
  unfold compose. rewrite visit_signs_hasStop, orb_true_iff.
  by rewrite existsb_is_close_elem_of.
Qed.

(** C4: the flag is never cleared. One iteration of the inner loop keeps a
    set flag, and a node whose flag is set before the call, or after any
    prefix of the detections has been examined, has it set after the call. *)
Theorem C4_hasStop_monotone route signs1 signs2 i N
    (Hnode : route !! i = Some N)
    (Hset : (visit_signs signs1 N).(hasStop) = true) :
  (∀ node sign, node.(hasStop) = true → (visit_sign node sign).(hasStop) = true)
  ∧ ∃ N', updateRoutingWithStopSigns route (signs1 ++ signs2) !! i = Some N'
          ∧ N'.(hasStop) = true.
Proof.
  split.
  - intros node sign Hnode'. by rewrite visit_sign_hasStop, Hnode'.
  - exists (visit_signs (signs1 ++ signs2) N). split.
    + by rewrite updateRoutingWithStopSigns_lookup, Hnode.
    + by rewrite visit_signs_app, visit_signs_hasStop, Hset.
Qed.

(** C5: running the annotator a second time with the same detections
    changes nothing. *)
Theorem C5_idempotent route signs :
  updateRoutingWithStopSigns (updateRoutingWithStopSigns route signs) signs
  = updateRoutingWithStopSigns route signs.
Proof.
  unfold updateRoutingWithStopSigns. rewrite <- list_fmap_compose.
  apply list_fmap_ext. intros _ node _. unfold compose.
  apply MapNode_eq.
  - by rewrite !visit_signs_x.
  - by rewrite !visit_signs_y.
  - rewrite !visit_signs_hasStop.
    rewrite (existsb_is_close_coords node (visit_signs signs node))
      by (apply visit_signs_x || apply visit_signs_y).
    by destruct (hasStop node), (existsb (is_close node) signs).
Qed.

(** C6: on the route (100,150), (200,250), (300,350), all flags clear, and
    one detection whose bounding box starts at (110,160), the first node is
    marked and the other two are not. *)
Theorem C6_scenario (w h : Z) (polygon : list cv.Point.t) :
  hasStop <$> updateRoutingWithStopSigns
                [ mkMapNode 100 150 false; mkMapNode 200 250 false;
                  mkMapNode 300 350 false ]
                [ {| boundingBox := cv.Rect.mk 110 160 w h; contour := polygon |} ]
  = [true; false; false].
Proof. by vm_compute. Qed.

(** C7: without detections the route is left as it is (coordinates and
    flags, so clear flags stay clear), and an empty route stays empty. *)
Theorem C7_empty_inputs :
  (∀ route, updateRoutingWithStopSigns route [] = route)
  ∧ (∀ route,
       Forall (λ node, node.(hasStop) = false) route →
       Forall (λ node, node.(hasStop) = false)
              (updateRoutingWithStopSigns route []))
  ∧ (∀ signs, updateRoutingWithStopSigns [] signs = []).
Proof.
  assert (Hid : ∀ route, updateRoutingWithStopSigns route [] = route).
  { intros route. unfold updateRoutingWithStopSigns.
    rewrite <- (list_fmap_id route) at 2. by apply list_fmap_ext. }
  split; [done|]. split; [|done].
  intros route Hclear. by rewrite Hid.
Qed.

(** C9: the call keeps the sequence and writes nothing but flags: the
    length is the same, the node at each index is the node that was there
    with the inner loop applied to it, and its coordinates are the same. *)
Theorem C9_frame route signs :
  length (updateRoutingWithStopSigns route signs) = length route
  ∧ (∀ i, updateRoutingWithStopSigns route signs !! i
          = visit_signs signs <$> route !! i)
  ∧ Forall2 (λ N N', N'.(x) = N.(x) ∧ N'.(y) = N.(y))
            route (updateRoutingWithStopSigns route signs).
Proof.
  split; [|split].
  - unfold updateRoutingWithStopSigns. apply length_fmap.
  - intros i. apply updateRoutingWithStopSigns_lookup.
  - unfold updateRoutingWithStopSigns.
    apply Forall2_fmap_r, Forall_Forall2_diag, Forall_forall. intros N _.
    unfold compose. by rewrite visit_signs_x, visit_signs_y.
Qed.

(** C10: the order of the detections does not matter. *)
Theorem C10_order_of_detections route signs signs' (Hperm : signs ≡ₚ signs') :
  updateRoutingWithStopSigns route signs
  = updateRoutingWithStopSigns route signs'.
Proof.
  unfold updateRoutingWithStopSigns. apply list_fmap_ext. intros _ node _.
  apply MapNode_eq.
  - by rewrite !visit_signs_x.
  - by rewrite !visit_signs_y.
  - rewrite !visit_signs_hasStop. f_equal.
    by apply existsb_is_close_Permutation.
Qed.

(** ** Claims about the sign detector *)

Section SignDetectorProperties.

Context `{cv.Primitives}.

Lemma empty_spec {A} (m : cv.Mat A) :
  cv.empty m = true ↔ cv.data m = [] ∨ cv.rows m = 0%nat ∨ cv.cols m = 0%nat.
Proof.
  unfold cv.empty, cv.total.
  by rewrite orb_true_iff, !bool_decide_eq_true, Nat.mul_eq_0.
Qed.

Lemma in_bounds_spec lowerb upperb px :
  cv.in_bounds lowerb upperb px = true
  ↔ cv.val0 lowerb ≤ cv.ch0 px ≤ cv.val0 upperb
    ∧ cv.val1 lowerb ≤ cv.ch1 px ≤ cv.val1 upperb
    ∧ cv.val2 lowerb ≤ cv.ch2 px ≤ cv.val2 upperb.
Proof. unfold cv.in_bounds. rewrite !andb_true_iff, !Z.leb_le. lia. Qed.

(** The two masks have the size of [hsv], so [mask1 | mask2] is accepted. *)
Lemma red_mask_Ok hsv :
  red_mask hsv
  = cv.Ok (cv.mkMat (cv.rows hsv) (cv.cols hsv)
             (zip_with Z.lor
                (cv.data (cv.inRange hsv (cv.mkScalar 0 70 50)
                                     (cv.mkScalar 10 255 255)))
                (cv.data (cv.inRange hsv (cv.mkScalar 170 70 50)
                                     (cv.mkScalar 180 255 255))))).
Proof.
  unfold red_mask, cv.bitwise_or. simpl.
  rewrite !length_fmap, !bool_decide_eq_true_2; done.
Qed.

(** The loop over the contours appends the accepted polygons, in order. *)
Lemma foldl_examine_contour detectedSigns contours :
  foldl examine_contour detectedSigns contours
  = detectedSigns
    ++ (detection_of <$> List.filter is_octagonal (approximate <$> contours)).
Proof.
  revert detectedSigns.
  induction contours as [|cnt contours IH]; intros detectedSigns; simpl.
  - by rewrite app_nil_r.
  - rewrite IH. unfold examine_contour.
    destruct (is_octagonal (approximate cnt)); simpl; [|done].
    by rewrite <- app_assoc.
Qed.

Lemma is_octagonal_spec approx :
  is_octagonal approx = true
  ↔ length approx = 8%nat
    ∧ (double_of_int 1000 <? cv.contourArea approx)%float = true.
Proof.
  unfold is_octagonal. by rewrite andb_true_iff, bool_decide_eq_true.
Qed.

(** C8: the mask [mask1 | mask2] exists for every HSV matrix, has its size,
holds only 0 and 255, and is non-zero at a position exactly when the pixel
there has hue in [0,10] or [170,180], saturation in [70,255] and value in
[50,255]; its element is the bitwise or of the two band masks. *)
Theorem C8_red_mask hsv :
  ∃ mask,
    red_mask hsv = cv.Ok mask
    ∧ cv.rows mask = cv.rows hsv
    ∧ cv.cols mask = cv.cols hsv
    ∧ length (cv.data mask) = length (cv.data hsv)
    ∧ ∀ i px,
        cv.data hsv !! i = Some px →
        ∃ m m1 m2,
          cv.data mask !! i = Some m
          ∧ cv.data (cv.inRange hsv (cv.mkScalar 0 70 50)
                                (cv.mkScalar 10 255 255)) !! i = Some m1
          ∧ cv.data (cv.inRange hsv (cv.mkScalar 170 70 50)
                                (cv.mkScalar 180 255 255)) !! i = Some m2
          ∧ m = Z.lor m1 m2
          ∧ (m = 0 ∨ m = 255)
          ∧ (m ≠ 0 ↔ is_red px).
Proof.
  eexists. split; [apply red_mask_Ok|]. simpl.
  repeat split.
  - by rewrite length_zip_with, !length_fmap, Nat.min_id.
  - intros i px Hpx.
    rewrite lookup_zip_with, !list_lookup_fmap, Hpx. simpl.
    do 3 eexists. do 4 (split; [reflexivity|]).
    pose proof (in_bounds_spec (cv.mkScalar 0 70 50) (cv.mkScalar 10 255 255) px)
      as Ha.
    pose proof (in_bounds_spec (cv.mkScalar 170 70 50) (cv.mkScalar 180 255 255) px)
      as Hb.
    unfold is_red. simpl in Ha, Hb.
    destruct (cv.in_bounds _ _ px), (cv.in_bounds _ _ px); simpl;
      (split; [auto|]);
      (split; [intros Hm | intros Hred; try done]).
    + destruct Ha as [Ha _]. specialize (Ha eq_refl). lia.
    + destruct Ha as [Ha _]. specialize (Ha eq_refl). lia.
    + destruct Hb as [Hb _]. specialize (Hb eq_refl). lia.
    + done.
    + assert (false = true) as Habs; [|done].
      destruct Hred as [[Hlow | Hhigh] Hsv]; [apply Ha | apply Hb]; lia.
Qed.

(** C3: for every image, every detection the detector returns has a
polygon of exactly 8 vertices whose area is above 1000. Once the colour
conversion has returned, the detector returns a list, never an exception:
the list holds, in contour order, one detection for each contour whose
approximated polygon passes both tests and nothing for the others. *)
Theorem C3_detections_are_large_octagons frame :
  (∀ detections,
     detectStopSigns frame = cv.Ok detections →
     Forall (λ d, length d.(contour) = 8%nat
                  ∧ (double_of_int 1000 <? cv.contourArea d.(contour))%float
                    = true)
            detections)
  ∧ (∀ hsv,
       cv.cvtColor frame cv.COLOR_BGR2HSV = cv.Ok hsv →
       ∃ mask,
         red_mask hsv = cv.Ok mask
         ∧ detectStopSigns frame
           = cv.Ok (detection_of
                      <$> List.filter is_octagonal
                            (approximate <$> contours_of mask))).
Proof.
  assert (Hrun : ∀ hsv,
            cv.cvtColor frame cv.COLOR_BGR2HSV = cv.Ok hsv →
            ∃ mask,
              red_mask hsv = cv.Ok mask
              ∧ detectStopSigns frame
                = cv.Ok (detection_of
                           <$> List.filter is_octagonal
                                 (approximate <$> contours_of mask))).
  { intros hsv Hcvt. unfold detectStopSigns. rewrite Hcvt. simpl.
    rewrite red_mask_Ok. simpl. eexists. split; [reflexivity|].
    by rewrite foldl_examine_contour. }
  split; [|done].
  intros detections Hret.
  destruct (cv.cvtColor frame cv.COLOR_BGR2HSV) as [hsv|e] eqn:Hcvt.
  - destruct (Hrun hsv eq_refl) as (mask & _ & Hdet).
    rewrite Hdet in Hret. injection Hret as <-.
    apply Forall_fmap, Forall_forall. intros approx Hin.
    apply list_elem_of_In, filter_In in Hin as [_ Hoct].
    by apply is_octagonal_spec in Hoct.
  - unfold detectStopSigns in Hret. by rewrite Hcvt in Hret.
Qed.

(** C2: an empty image is rejected before anything is processed. [main]
reports the error and returns -1 with no other action, whatever the
primitives do; and [detectStopSigns] itself, whose first action is the
colour conversion, ends with the exception that conversion throws on an
empty source, returning no list. *)
Theorem C2_empty_image_rejected frame (Hempty : cv.empty frame = true) :
  (cv.imread "stop_sign_sample.jpg" = frame → main = rejected_run)
  ∧ (cvtColor_rejects_empty →
     ∃ e, cv.cvtColor frame cv.COLOR_BGR2HSV = cv.Throw e
          ∧ detectStopSigns frame = cv.Throw e).
Proof.
  split.
  - intros Hread. unfold main. by rewrite Hread, Hempty.
  - intros Hassert.
    destruct (Hassert frame cv.COLOR_BGR2HSV Hempty) as [e He].
    exists e. split; [done|]. unfold detectStopSigns. by rewrite He.
Qed.

End SignDetectorProperties.

(** ** The claims at concrete inputs *)

(** The detector on the fixture: of an octagon of area 2800, an octagon of
area 175 and a square of area 10000, only the first is reported. *)
Example detectStopSigns_fixture :
  @detectStopSigns
    (Fixture.fixture Fixture.image
       [Fixture.octagon; Fixture.small_octagon; Fixture.square])
    Fixture.image
  = cv.Ok [ {| boundingBox := cv.Rect.mk 0 0 61 61;
               contour := Fixture.octagon |} ].
Proof. by vm_compute. Qed.

Example red_mask_fixture :
  red_mask Fixture.image = cv.Ok (cv.mkMat 2 2 [255; 0; 0; 255]).
Proof. by vm_compute. Qed.

Example main_fixture :
  ending (@main (Fixture.fixture Fixture.image [Fixture.octagon])) = Return 0
  ∧ ending (@main (Fixture.fixture Fixture.no_image [Fixture.octagon]))
    = Return (-1).
Proof. by vm_compute. Qed.

(** The distances of the scenario route from a bounding box at (110,160),
as the program computes them. *)
Example scenario_distances :
  (λ node, distance node {| boundingBox := cv.Rect.mk 110 160 40 40;
                            contour := Fixture.octagon |})
    <$> example_route
  = [ 14.142135623730951; 127.27922061357856; 268.70057685088807 ]%float.
Proof. by vm_compute. Qed.

Lemma C2_empty_image_rejected_witness :
  cv.empty Fixture.no_image = true
  ∧ @main (Fixture.fixture Fixture.no_image []) = rejected_run
  ∧ ∃ e, @detectStopSigns (Fixture.fixture Fixture.no_image []) Fixture.no_image
         = cv.Throw e.
Proof.
  destruct (@C2_empty_image_rejected
              (Fixture.fixture Fixture.no_image []) Fixture.no_image eq_refl)
    as [Hmain Hdetect].
  split; [reflexivity|]. split; [exact (Hmain eq_refl)|].
  destruct Hdetect as (e & _ & He).
  - intros src code Hsrc. exists cv.StsAssert. simpl. by rewrite Hsrc.
  - by exists e.
Defined.

Lemma C3_detections_are_large_octagons_witness :
  Forall (λ d, length d.(contour) = 8%nat
               ∧ (double_of_int 1000 <? Fixture.contourArea d.(contour))%float
                 = true)
         [ {| boundingBox := cv.Rect.mk 0 0 61 61; contour := Fixture.octagon |} ].
Proof.
  apply (@C3_detections_are_large_octagons
           (Fixture.fixture Fixture.image
              [Fixture.octagon; Fixture.small_octagon; Fixture.square])
           Fixture.image).
  by vm_compute.
Defined.

Lemma C4_hasStop_monotone_witness :
  ∃ N', updateRoutingWithStopSigns example_route
          ([ {| boundingBox := cv.Rect.mk 110 160 40 40;
                contour := Fixture.octagon |} ] ++ [sign_at_origin]) !! 0%nat
        = Some N'
        ∧ N'.(hasStop) = true.
Proof.
  apply (C4_hasStop_monotone example_route
           [ {| boundingBox := cv.Rect.mk 110 160 40 40;
                contour := Fixture.octagon |} ]
           [sign_at_origin] 0 (mkMapNode 100 150 false)).
  - reflexivity.
  - by vm_compute.
Defined.

Lemma C10_order_of_detections_witness :
  updateRoutingWithStopSigns example_route
    [ sign_at_origin;
      {| boundingBox := cv.Rect.mk 110 160 40 40; contour := Fixture.octagon |} ]
  = updateRoutingWithStopSigns example_route
      [ {| boundingBox := cv.Rect.mk 110 160 40 40; contour := Fixture.octagon |};
        sign_at_origin ].
Proof.
  apply C10_order_of_detections. apply perm_swap.
Defined.

(** ** Further properties of the route annotator *)

Section RouteAnnotatorAlgebra.

Implicit Types (node : MapNode) (sign : DetectedStopSign).
Implicit Types (route : list MapNode) (signs : list DetectedStopSign).

(** Two detection lists that are close to a node together give it the same
final state. *)
Lemma visit_signs_existsb signs signs' node :
  existsb (is_close node) signs = existsb (is_close node) signs' →
  visit_signs signs node = visit_signs signs' node.
Proof.
  intros Hsame. apply MapNode_eq.
  - by rewrite !visit_signs_x.
  - by rewrite !visit_signs_y.
  - by rewrite !visit_signs_hasStop, Hsame.
Qed.

Lemma visit_signs_marked signs node :
  node.(hasStop) = true → visit_signs signs node = node.
Proof.
  intros Hset. apply MapNode_eq.
  - apply visit_signs_x.
  - apply visit_signs_y.
  - by rewrite visit_signs_hasStop, Hset.
Qed.

Lemma visit_signs_none_close signs node :
  existsb (is_close node) signs = false → visit_signs signs node = node.
Proof.
  intros Hnone. apply MapNode_eq.
  - apply visit_signs_x.
  - apply visit_signs_y.
  - by rewrite visit_signs_hasStop, Hnone, orb_false_r.
Qed.

Lemma is_close_corner node sign sign' :
  corner sign = corner sign' → is_close node sign = is_close node sign'.
Proof.
  unfold corner, is_close, distance. intros [= Hx Hy]. by rewrite Hx, Hy.
Qed.

Lemma existsb_is_close_corners node signs signs' :
  corner <$> signs = corner <$> signs' →
  existsb (is_close node) signs = existsb (is_close node) signs'.
Proof.
  revert signs'.
  induction signs as [|sign signs IH]; intros [|sign' signs']; simpl;
    try done.
  intros [= Hx Hy Hrest].
  rewrite (IH signs' Hrest). f_equal. apply is_close_corner.
  unfold corner. by rewrite Hx, Hy.
Qed.

Lemma existsb_is_close_subseteq node signs signs' :
  signs ⊆ signs' →
  existsb (is_close node) signs = true →
  existsb (is_close node) signs' = true.
Proof.
  intros Hsub. rewrite !existsb_exists.
  intros (sign & Hin & Hclose). exists sign. split; [|done].
  apply list_elem_of_In, Hsub, list_elem_of_In, Hin.
Qed.

(** X1: examining the detections in two batches, one call after the other,
is the same as one call on the two batches put end to end. *)
Theorem annotate_in_batches route signs1 signs2 :
  updateRoutingWithStopSigns (updateRoutingWithStopSigns route signs1) signs2
  = updateRoutingWithStopSigns route (signs1 ++ signs2).
Proof.
  unfold updateRoutingWithStopSigns. rewrite <- list_fmap_compose.
  apply list_fmap_ext. intros _ node _. unfold compose.
  by rewrite visit_signs_app.
Qed.

(** X2: two calls with different detection lists commute. *)
Theorem annotate_commutes route signs1 signs2 :
  updateRoutingWithStopSigns (updateRoutingWithStopSigns route signs1) signs2
  = updateRoutingWithStopSigns (updateRoutingWithStopSigns route signs2) signs1.
Proof.
  unfold updateRoutingWithStopSigns. rewrite <- !list_fmap_compose.
  apply list_fmap_ext. intros _ node _. unfold compose.
  rewrite <- !visit_signs_app. apply visit_signs_existsb.
  rewrite !existsb_app. apply orb_comm.
Qed.

(** X3: more detections never mark fewer nodes. If every detection of
[signs] also occurs in [signs'], each node marked with [signs] is marked
with [signs']. *)
Theorem annotate_monotone_in_detections route signs signs'
    (Hsub : signs ⊆ signs') :
  Forall2 (λ N N', N.(hasStop) = true → N'.(hasStop) = true)
          (updateRoutingWithStopSigns route signs)
          (updateRoutingWithStopSigns route signs').
Proof.
  unfold updateRoutingWithStopSigns.
  apply Forall2_fmap, Forall_Forall2_diag, Forall_forall. intros node _.
  rewrite !visit_signs_hasStop, !orb_true_iff.
  intros [Hset | Hclose]; [by left | right].
  by apply (existsb_is_close_subseteq node signs signs').
Qed.

(** X4: only which detections occur matters, not how often or where in the
list: lists with the same elements give the same route. *)
Theorem annotate_same_detections route signs signs'
    (Hsub : signs ⊆ signs') (Hsup : signs' ⊆ signs) :
  updateRoutingWithStopSigns route signs
  = updateRoutingWithStopSigns route signs'.
Proof.
  unfold updateRoutingWithStopSigns. apply list_fmap_ext. intros _ node _.
  apply visit_signs_existsb.
  destruct (existsb (is_close node) signs) eqn:Hs.
  - symmetry. by apply (existsb_is_close_subseteq node signs signs').
  - destruct (existsb (is_close node) signs') eqn:Hs'; [|done].
    apply (existsb_is_close_subseteq node signs' signs Hsup) in Hs'.
    congruence.
Qed.

(** X5: of a detection, the annotator reads the top-left corner of the
bounding box and nothing else: width, height and polygon have no effect. *)
Theorem annotate_reads_corners_only route signs signs'
    (Hcorners : corner <$> signs = corner <$> signs') :
  updateRoutingWithStopSigns route signs
  = updateRoutingWithStopSigns route signs'.
Proof.
  unfold updateRoutingWithStopSigns. apply list_fmap_ext. intros _ node _.
  by apply visit_signs_existsb, existsb_is_close_corners.
Qed.

(** X6: a route whose nodes are all marked is returned as it is, whatever
the detections. *)
Theorem annotate_marked_route route signs
    (Hmarked : Forall (λ node, node.(hasStop) = true) route) :
  updateRoutingWithStopSigns route signs = route.
Proof.
  unfold updateRoutingWithStopSigns.
  rewrite <- (list_fmap_id route) at 2.
  apply list_fmap_ext. intros i node Hnode. simpl.
  apply visit_signs_marked.
  by apply (Forall_lookup_1 _ route i node Hmarked).
Qed.

End RouteAnnotatorAlgebra.

(** ** Coordinates that are not finite numbers *)

Section NonFinite.

Implicit Types (node : MapNode) (sign : DetectedStopSign).

Lemma is_nan_Prim2SF (d : float) :
  PrimFloat.is_nan d = true → Prim2SF d = S754_nan.
Proof.
  unfold PrimFloat.is_nan. rewrite FloatAxioms.eqb_spec.
  destruct (Prim2SF d) as [s|s| |s m e]; try reflexivity; intros Hne; exfalso.
  - by destruct s.
  - by destruct s.
  - unfold SFeqb, SFcompare in Hne.
    rewrite Z.compare_refl, Pos.compare_cont_refl in Hne. by destruct s.
Qed.

Lemma is_infinity_Prim2SF (d : float) :
  PrimFloat.is_infinity d = true → ∃ s, Prim2SF d = S754_infinity s.
Proof.
  unfold PrimFloat.is_infinity.
  rewrite FloatAxioms.eqb_spec, FloatAxioms.abs_spec.
  destruct (Prim2SF d) as [s|s| |s m e]; try done.
  intros _. by exists s.
Qed.

(** The comparison [distance < 50.0] as IEEE 754 specifies it. *)
Lemma is_close_spec node sign :
  is_close node sign
  = let dx := SF64sub (Prim2SF node.(x))
                (Prim2SF (double_of_int sign.(boundingBox).(cv.Rect.x))) in
    let dy := SF64sub (Prim2SF node.(y))
                (Prim2SF (double_of_int sign.(boundingBox).(cv.Rect.y))) in
    SFltb (SF64sqrt (SF64add (SF64mul dx dx) (SF64mul dy dy))) (Prim2SF 50).
Proof.
  unfold is_close, distance.
  by rewrite FloatAxioms.ltb_spec, FloatAxioms.sqrt_spec, FloatAxioms.add_spec,
    !FloatAxioms.mul_spec, !FloatAxioms.sub_spec.
Qed.

Lemma is_close_non_finite node sign :
  non_finite node.(x) || non_finite node.(y) = true →
  is_close node sign = false.
Proof.
  unfold non_finite. rewrite is_close_spec, !orb_true_iff. cbv zeta.
  intros [[Hnan | Hinf] | [Hnan | Hinf]].
  - by rewrite (is_nan_Prim2SF _ Hnan).
  - destruct (is_infinity_Prim2SF _ Hinf) as [s ->].
    destruct (Prim2SF (double_of_int _)) as [sa|sa| |sa ma ea];
      destruct (SF64mul (SF64sub (Prim2SF (y node)) _) _) as [sb|sb| |sb mb eb];
      by repeat match goal with b : bool |- _ => destruct b end.
  - rewrite (is_nan_Prim2SF _ Hnan). simpl. by destruct (SF64mul _ _).
  - destruct (is_infinity_Prim2SF _ Hinf) as [s ->].
    destruct (Prim2SF (double_of_int (cv.Rect.y _))) as [sa|sa| |sa ma ea];
      destruct (SF64mul (SF64sub (Prim2SF (x node)) _) _) as [sb|sb| |sb mb eb];
      by repeat match goal with b : bool |- _ => destruct b end.
Qed.

(** X7: a node one of whose coordinates is a NaN or an infinity is never
marked: the call leaves it as it is. *)
Theorem annotate_non_finite_node route signs i node
    (Hnode : route !! i = Some node)
    (Hbad : non_finite node.(x) || non_finite node.(y) = true) :
  updateRoutingWithStopSigns route signs !! i = Some node.
Proof.
  rewrite updateRoutingWithStopSigns_lookup, Hnode. simpl. f_equal.
  apply visit_signs_none_close.
  induction signs as [|sign signs IH]; simpl; [done|].
  by rewrite IH, is_close_non_finite.
Qed.

End NonFinite.

(** ** Further properties of the sign detector and of [main] *)

Section DetectorAndProgram.

Context `{cv.Primitives}.

Lemma detectStopSigns_Ok frame hsv :
  cv.cvtColor frame cv.COLOR_BGR2HSV = cv.Ok hsv →
  ∃ mask,
    red_mask hsv = cv.Ok mask
    ∧ detectStopSigns frame
      = cv.Ok (detection_of
                 <$> List.filter is_octagonal (approximate <$> contours_of mask)).
Proof.
  intros Hcvt. unfold detectStopSigns. rewrite Hcvt. simpl.
  rewrite red_mask_Ok. simpl. eexists. split; [reflexivity|].
  by rewrite foldl_examine_contour.
Qed.

Lemma detectStopSigns_Throw frame e :
  cv.cvtColor frame cv.COLOR_BGR2HSV = cv.Throw e →
  detectStopSigns frame = cv.Throw e.
Proof. intros Hcvt. unfold detectStopSigns. by rewrite Hcvt. Qed.


(** X8: the detector throws exactly when the colour conversion throws, and
then it throws the same exception: no later step of the pipeline (masks,
morphology, contours, polygon tests) can fail. *)
Theorem detectStopSigns_throws_iff frame e :
  detectStopSigns frame = cv.Throw e
  ↔ cv.cvtColor frame cv.COLOR_BGR2HSV = cv.Throw e.
Proof.
  split; [|apply detectStopSigns_Throw].
  destruct (cv.cvtColor frame cv.COLOR_BGR2HSV) as [hsv|e'] eqn:Hcvt.
  - destruct (detectStopSigns_Ok frame hsv Hcvt) as (mask & _ & ->). done.
  - rewrite (detectStopSigns_Throw frame e' Hcvt). by intros [= ->].
Qed.

(** X9: in a returned list every detection carries the bounding rectangle
of its own polygon, its polygon is the approximation of one of the contours
found in the cleaned mask, and the detections are the images, in order, of
a sublist of those contours, so there are at most as many as contours. *)
Theorem detections_come_from_contours frame detections
    (Hret : detectStopSigns frame = cv.Ok detections) :
  Forall (λ d, d.(boundingBox) = cv.boundingRect d.(contour)) detections
  ∧ ∃ hsv mask,
      cv.cvtColor frame cv.COLOR_BGR2HSV = cv.Ok hsv
      ∧ red_mask hsv = cv.Ok mask
      ∧ (∃ kept, kept `sublist_of` contours_of mask
                 ∧ detections = (λ cnt, detection_of (approximate cnt)) <$> kept)
      ∧ (length detections ≤ length (contours_of mask))%nat.
Proof.
  destruct (cv.cvtColor frame cv.COLOR_BGR2HSV) as [hsv|e] eqn:Hcvt;
    [|by rewrite (detectStopSigns_Throw frame e Hcvt) in Hret].
  destruct (detectStopSigns_Ok frame hsv Hcvt) as (mask & Hmask & Hdet).
  rewrite Hdet in Hret. injection Hret as <-.
  assert (Hkept : ∀ contours,
            ∃ kept, kept `sublist_of` contours
                    ∧ List.filter is_octagonal (approximate <$> contours)
                      = approximate <$> kept).
  { induction contours as [|cnt contours (kept & Hsub & Heq)].
    - by exists [].
    - rewrite fmap_cons. cbn [List.filter].
      destruct (is_octagonal (approximate cnt)).
      + exists (cnt :: kept). split; [by apply sublist_skip|].
        by rewrite Heq, fmap_cons.
      + exists kept. split; [by apply sublist_cons|done]. }
  destruct (Hkept (contours_of mask)) as (kept & Hsub & Heq).
  split; [by apply Forall_fmap, Forall_forall|].
  exists hsv, mask. split; [done|]. split; [done|]. rewrite Heq. split.
  - exists kept. split; [done|]. by rewrite <- list_fmap_compose.
  - rewrite !length_fmap. by apply sublist_length.
Qed.

(** X10: the two hue bands select disjoint sets of pixels: at no position
are both band masks set, so the combined mask is also their sum. *)
Theorem red_bands_disjoint hsv :
  Forall2 (λ m1 m2, (m1 = 0 ∨ m2 = 0) ∧ Z.lor m1 m2 = m1 + m2)
    (cv.data (cv.inRange hsv (cv.mkScalar 0 70 50) (cv.mkScalar 10 255 255)))
    (cv.data (cv.inRange hsv (cv.mkScalar 170 70 50) (cv.mkScalar 180 255 255))).
Proof.
  simpl. apply Forall2_fmap, Forall_Forall2_diag, Forall_forall. intros px _.
  pose proof (in_bounds_spec (cv.mkScalar 0 70 50) (cv.mkScalar 10 255 255) px)
    as Ha.
  pose proof (in_bounds_spec (cv.mkScalar 170 70 50) (cv.mkScalar 180 255 255) px)
    as Hb.
  simpl in Ha, Hb.
  destruct (cv.in_bounds _ _ px), (cv.in_bounds _ _ px); simpl; auto.
  destruct Ha as [Ha _], Hb as [Hb _].
  specialize (Ha eq_refl). specialize (Hb eq_refl). lia.
Qed.

(** X11: how [main] ends, as far as its own code decides it. It returns
-1 exactly when the image read is empty. It returns 0 only if the image is
not empty and the colour conversion has returned. If the image is not
empty and the colour conversion throws, [main], which catches nothing, is
terminated by that exception before anything is printed or shown. It
returns no status other than 0 and -1. *)
Theorem main_ending :
  let frame := cv.imread "stop_sign_sample.jpg" in
  (ending main = Return (-1) ↔ cv.empty frame = true)
  ∧ (ending main = Return 0 →
     cv.empty frame = false
     ∧ ∃ hsv, cv.cvtColor frame cv.COLOR_BGR2HSV = cv.Ok hsv)
  ∧ (∀ e, cv.empty frame = false →
          cv.cvtColor frame cv.COLOR_BGR2HSV = cv.Throw e →
          main = {| events := []; ending := Terminate e |})
  ∧ (∀ status, ending main = Return status → status = 0 ∨ status = -1).
Proof.
  intros frame. unfold main. fold frame.
  destruct (cv.empty frame) eqn:Hempty; simpl.
  { split_and!.
    - done.
    - by intros [=].
    - by intros e [=].
    - intros status [= <-]. by right. }
  destruct (cv.cvtColor frame cv.COLOR_BGR2HSV) as [hsv|e'] eqn:Hcvt.
  - destruct (detectStopSigns_Ok frame hsv Hcvt) as (mask & _ & ->). simpl.
    split_and!.
    + split; [done | by intros [=]].
    + eauto.
    + by intros e _ [=].
    + intros status [= <-]. by left.
  - rewrite (detectStopSigns_Throw frame e' Hcvt). simpl.
    split_and!.
    + split; [done | by intros [=]].
    + by intros [=].
    + by intros e _ [= ->].
    + by intros status [=].
Qed.


End DetectorAndProgram.

(** ** The further properties at concrete inputs *)

Lemma annotate_monotone_in_detections_witness :
  hasStop <$> updateRoutingWithStopSigns
                [ mkMapNode 100 150 false; mkMapNode 200 250 false;
                  mkMapNode 20 30 false ]
                [ {| boundingBox := cv.Rect.mk 110 160 40 40;
                     contour := Fixture.octagon |} ]
  = [ true; false; false ]
  ∧ hasStop <$> updateRoutingWithStopSigns
                  [ mkMapNode 100 150 false; mkMapNode 200 250 false;
                    mkMapNode 20 30 false ]
                  [ sign_at_origin;
                    {| boundingBox := cv.Rect.mk 110 160 40 40;
                       contour := Fixture.octagon |} ]
    = [ true; false; true ]
  ∧ Forall2 (λ N N', N.(hasStop) = true → N'.(hasStop) = true)
      (updateRoutingWithStopSigns
         [ mkMapNode 100 150 false; mkMapNode 200 250 false;
           mkMapNode 20 30 false ]
         [ {| boundingBox := cv.Rect.mk 110 160 40 40;
              contour := Fixture.octagon |} ])
      (updateRoutingWithStopSigns
         [ mkMapNode 100 150 false; mkMapNode 200 250 false;
           mkMapNode 20 30 false ]
         [ sign_at_origin;
           {| boundingBox := cv.Rect.mk 110 160 40 40;
              contour := Fixture.octagon |} ]).
Proof.
  split; [by vm_compute|]. split; [by vm_compute|].
  apply annotate_monotone_in_detections.
  intros sign Hsign. apply list_elem_of_further, Hsign.
Defined.

Lemma annotate_same_detections_witness :
  hasStop <$> updateRoutingWithStopSigns
                [ mkMapNode 100 150 false; mkMapNode 200 250 false;
                  mkMapNode 20 30 false ]
                [ sign_at_origin;
                  {| boundingBox := cv.Rect.mk 110 160 40 40;
                     contour := Fixture.octagon |} ]
  = [ true; false; true ]
  ∧ updateRoutingWithStopSigns
      [ mkMapNode 100 150 false; mkMapNode 200 250 false;
        mkMapNode 20 30 false ]
      [ {| boundingBox := cv.Rect.mk 110 160 40 40; contour := Fixture.octagon |};
        sign_at_origin;
        {| boundingBox := cv.Rect.mk 110 160 40 40; contour := Fixture.octagon |};
        sign_at_origin ]
    = updateRoutingWithStopSigns
        [ mkMapNode 100 150 false; mkMapNode 200 250 false;
          mkMapNode 20 30 false ]
        [ sign_at_origin;
          {| boundingBox := cv.Rect.mk 110 160 40 40;
             contour := Fixture.octagon |} ].
Proof.
  split; [by vm_compute|].
  apply annotate_same_detections.
  - intros sign Hsign.
    repeat (apply elem_of_cons in Hsign as [-> | Hsign]);
      [ apply list_elem_of_further, list_elem_of_here
      | apply list_elem_of_here
      | apply list_elem_of_further, list_elem_of_here
      | apply list_elem_of_here
      | by apply elem_of_nil in Hsign ].
  - intros sign Hsign.
    repeat (apply elem_of_cons in Hsign as [-> | Hsign]);
      [ apply list_elem_of_further, list_elem_of_here
      | apply list_elem_of_here
      | by apply elem_of_nil in Hsign ].
Defined.

Lemma annotate_reads_corners_only_witness :
  updateRoutingWithStopSigns example_route
    [ {| boundingBox := cv.Rect.mk 110 160 40 40; contour := Fixture.octagon |} ]
  = updateRoutingWithStopSigns example_route
      [ {| boundingBox := cv.Rect.mk 110 160 7 900; contour := Fixture.square |} ].
Proof.
  apply annotate_reads_corners_only. reflexivity.
Defined.

Lemma annotate_marked_route_witness :
  updateRoutingWithStopSigns
    [ mkMapNode 100 150 true; mkMapNode 0 0 true ] [ sign_at_origin ]
  = [ mkMapNode 100 150 true; mkMapNode 0 0 true ].
Proof.
  apply annotate_marked_route. repeat constructor.
Defined.

Lemma annotate_non_finite_node_witness :
  updateRoutingWithStopSigns
    [ mkMapNode 0 0 false; mkMapNode PrimFloat.nan 0 false;
      mkMapNode 0 PrimFloat.neg_infinity false ]
    [ sign_at_origin ] !! 2%nat
  = Some (mkMapNode 0 PrimFloat.neg_infinity false).
Proof.
  apply annotate_non_finite_node; reflexivity.
Defined.

Lemma detections_come_from_contours_witness :
  Forall (λ d, d.(boundingBox) = Fixture.boundingRect d.(contour))
    [ {| boundingBox := cv.Rect.mk 0 0 61 61; contour := Fixture.octagon |} ].
Proof.
  apply (@detections_come_from_contours
           (Fixture.fixture Fixture.image
              [Fixture.octagon; Fixture.small_octagon; Fixture.square])
           Fixture.image).
  by vm_compute.
Defined.

